(** * Themis policy decision point: root document parser, combining
      algorithm and tracing set-up

    A shallow embedding of [jast.context.unmarshal] (the entry point of the
    JSON policy parser), of the Deny-overrides combining algorithm and of
    [InitTracing] of the PDP server, with the properties the specification
    states about them. *)

From Stdlib Require Import Ascii.
From Equations Require Import Equations.
From stdpp Require Import gmap strings list.

Local Open Scope string_scope.

(** ** The token stream of [encoding/json]

    [json.Decoder] belongs to Go's standard library.  The parser only ever
    calls [Token] on it, so a decoder is modelled by what those calls will
    return: the tokens still to come and the way the input ends, either
    cleanly ([io.EOF]) or on malformed text (a syntax error). *)

Module json.

Inductive Delim := ObjectStart | ObjectEnd | ArrayStart | ArrayEnd.

(** [Delim.String]. *)
Definition Delim_String (d : Delim) : string :=
  match d with
  | ObjectStart => "{"
  | ObjectEnd => "}"
  | ArrayStart => "["
  | ArrayEnd => "]"
  end.

Inductive Token :=
| TDelim (d : Delim)
| TBool (b : bool)
| TNumber (lit : string)
| TString (s : string)
| TNull.

Record Decoder := mkDecoder {
  pending : list Token;
  ending : option string
}.

End json.

Import json.

(** Go [error] values.  The constructor functions of the parser's errors
    live in files that are not among the sources; each is kept as a
    constructor holding the arguments it is called with. *)
Inductive error :=
| io_EOF
| json_SyntaxError (msg : string)
| fmt_Errorf (msg : string)
| newObjectStartTokenError (actual : Token) (expected desc : string)
| newObjectStartDelimiterError (actual : Delim) (expected desc : string)
| newStringCastError (actual : Token) (desc : string)
| newRootObjectStartTokenError (actual : Token) (expected : string)
| newRootObjectStartDelimiterError (actual : Delim) (expected : string)
| newObjectTokenError (actual : Token) (expected desc : string)
| newObjectEndDelimiterError (actual : Delim) (expected desc : string)
| newMissingEOFError (actual : Token)
| newUnknownAttributeError (name : string)
| newDuplicateAttributeError (name : string).

(** The decoder's [Token] method: the next token, or the error that ends the
    input.  Once the input is exhausted the same error is reported again. *)
Definition Decoder_Token (d : Decoder) : (Token + error) * Decoder :=
  match pending d with
  | t :: rest => (inl t, mkDecoder rest (ending d))
  | [] =>
      (inr match ending d with
           | None => io_EOF
           | Some msg => json_SyntaxError msg
           end, d)
  end.

(** A callee can act on the decoder only by reading from it, so its effect
    on the decoder is the number of tokens it took. *)
Definition advance (n : nat) (d : Decoder) : Decoder :=
  mkDecoder (drop n (pending d)) (ending d).

(** The number of tokens read between two states of one decoder. *)
Definition consumed (d d' : Decoder) : nat :=
  length (pending d) - length (pending d').

(** ** Package [jparser] *)

Module jparser.

Definition delimObjectStart : string := "{".
Definition delimObjectEnd : string := "}".

(** Modelled from the spec: [jparser.CheckRootObjectStart] is not among the
    sources.  It reads the first token of the document: an input that ends
    before any token has no root object, which is reported as absence
    ([false]) without an error; a decoding error is passed on; anything but
    the opening brace of an object is a structural error. *)
Definition CheckRootObjectStart (d : Decoder) : bool * option error * Decoder :=
  match Decoder_Token d with
  | (inr io_EOF, d') => (false, None, d')
  | (inr err, d') => (false, Some err, d')
  | (inl (TDelim delim), d') =>
      if decide (Delim_String delim = delimObjectStart)
      then (true, None, d')
      else (false, Some (newRootObjectStartDelimiterError delim delimObjectStart), d')
  | (inl t, d') => (false, Some (newRootObjectStartTokenError t delimObjectStart), d')
  end.

(** Modelled from the spec: [jparser.CheckEOF] is not among the sources.
    It reads one more token and succeeds only if the input ends there. *)
Definition CheckEOF (d : Decoder) : option error * Decoder :=
  match Decoder_Token d with
  | (inr io_EOF, d') => (None, d')
  | (inr err, d') => (Some err, d')
  | (inl t, d') => (Some (newMissingEOFError t), d')
  end.

(** Modelled from the spec: [jparser.CheckObjectStart] is not among the
    sources.  The next token has to open an object. *)
Definition CheckObjectStart (d : Decoder) (desc : string) : option error * Decoder :=
  match Decoder_Token d with
  | (inr err, d') => (Some err, d')
  | (inl (TDelim delim), d') =>
      if decide (Delim_String delim = delimObjectStart)
      then (None, d')
      else (Some (newObjectStartDelimiterError delim delimObjectStart desc), d')
  | (inl t, d') => (Some (newObjectStartTokenError t delimObjectStart desc), d')
  end.

(** Modelled from the spec: [jparser.GetString] is not among the sources.
    The next token has to be a string. *)
Definition GetString (d : Decoder) (desc : string) : (string + error) * Decoder :=
  match Decoder_Token d with
  | (inr err, d') => (inr err, d')
  | (inl (TString s), d') => (inl s, d')
  | (inl t, d') => (inr (newStringCastError t desc), d')
  end.

Section UnmarshalObject.

(** The callback is a closure over mutable state of its caller; that state,
    of type [St], is threaded through the calls. *)
Context {St : Type}.
Variable f : string -> Decoder -> St -> option error * St * nat.
Variable desc : string.

(** Modelled from the spec: the member loop of [jparser.UnmarshalObject],
    which is not among the sources.  One pass over the members of the
    object whose opening brace has been read: each key is handed to the
    callback together with the decoder, positioned at the key's payload;
    the first error, of the decoder, of the callback or of the object's
    shape, ends the pass and is returned; the closing brace ends it with
    success. *)
Equations? loop (e : option string) (s : St) (toks : list Token)
  : option error * St * Decoder by wf (length toks) lt :=
loop e s [] := (Some (match e with None => io_EOF | Some msg => json_SyntaxError msg end),
                s, mkDecoder [] e);
loop e s (TString k :: rest) with f k (mkDecoder rest e) s := {
  | (Some err, s', n) := (Some err, s', mkDecoder (drop n rest) e);
  | (None, s', n) := loop e s' (drop n rest) };
loop e s (TDelim delim :: rest) :=
  if decide (Delim_String delim = delimObjectEnd)
  then (None, s, mkDecoder rest e)
  else (Some (newObjectEndDelimiterError delim delimObjectEnd desc), s, mkDecoder rest e);
loop e s (t :: rest) := (Some (newObjectTokenError t delimObjectEnd desc), s, mkDecoder rest e).
Proof. rewrite length_drop. simpl. lia. Qed.

(** [Dispatched s d ks s' d']: from state [s] and decoder [d] the next
    tokens are members with the keys [ks], in this order, each of them
    accepted by the callback, after which the state is [s'] and the decoder
    [d']. *)
Inductive Dispatched : St -> Decoder -> list string -> St -> Decoder -> Prop :=
| dispatched_none s d : Dispatched s d [] s d
| dispatched_member s d k d1 s1 n ks s' d' :
    Decoder_Token d = (inl (TString k), d1) ->
    f k d1 s = (None, s1, n) ->
    Dispatched s1 (advance n d1) ks s' d' ->
    Dispatched s d (k :: ks) s' d'.

End UnmarshalObject.

(** Modelled from the spec: [jparser.UnmarshalObject(d, f, desc)] is not
    among the sources; it runs the member loop on the decoder, with the
    state [s] the callback closes over. *)
Definition UnmarshalObject {St : Type} (d : Decoder)
    (f : string -> Decoder -> St -> option error * St * nat) (desc : string) (s : St)
  : option error * St * Decoder :=
  loop f desc (ending d) s (pending d).

End jparser.

(** ** Package [strings]

    [strings.ToLower] belongs to Go's standard library and maps every
    Unicode letter to its lower case.  The parser is parameterised by it;
    what the development relies on is its action on ASCII text, where it
    maps the bytes [A]..[Z] to [a]..[z] and keeps every other byte. *)

Module strings.

Definition is_upper (c : ascii) : bool :=
  let n := nat_of_ascii c in (65 <=? n)%nat && (n <=? 90)%nat.



Definition lower_byte (c : ascii) : ascii :=
  if is_upper c then ascii_of_nat (nat_of_ascii c + 32) else c.


Fixpoint map_bytes (g : ascii -> ascii) (s : string) : string :=
  match s with
  | EmptyString => EmptyString
  | String c s' => String (g c) (map_bytes g s')
  end.


Definition ToLowerASCII (s : string) : string := map_bytes lower_byte s.




End strings.

(** ** Package [jast]: the JSON policy parser *)

Module jast.

(** Modelled from the spec: the tag constants are declared in a file that
    is not among the sources.  The attribute-declarations tag and the
    policies tag of the document format, in lower case. *)
Definition yastTagAttributes : string := "attributes".
Definition yastTagPolicies : string := "policies".

(** Modelled from the spec: [pdp.Attribute] is declared in a package that is
    not among the sources.  A declared attribute is an id with its type. *)
Record Attribute := MakeAttribute {
  attr_id : string;
  attr_type : string
}.

Section Context.

(** [pdp.Evaluable], the interface of policy tree nodes, is declared in a
    package that is not among the sources; the parser only stores it. *)
Context {Evaluable : Type}.

Record context := mkContext {
  attrs : gmap string Attribute;
  rootPolicy : option Evaluable
}.

Definition newContext : context := mkContext ∅ None.

Definition newContextWithAttributes (attrs : gmap string Attribute) : context :=
  mkContext attrs None.

(** A method of [*context] that reads from the decoder: it may update the
    context in place, returns an error or [nil], and leaves the decoder
    advanced by the number of tokens it read. *)
Definition Handler : Type := Decoder -> context -> option error * context * nat.

Variable ToLower : string -> string.

(** The two section parsers are defined in files that are not among the
    sources; [unmarshal] is defined for any pair of them. *)
Variable unmarshalAttributeDeclarations : Handler.
Variable unmarshalRootPolicy : Handler.

(** The function literal handed to [jparser.UnmarshalObject] by
    [unmarshal]: the switch on the lower-cased key. *)
Definition rootMember (k : string) : Handler := fun d ctx =>
  let tag := ToLower k in
  if decide (tag = yastTagAttributes) then unmarshalAttributeDeclarations d ctx
  else if decide (tag = yastTagPolicies) then unmarshalRootPolicy d ctx
  else (Some (newUnknownAttributeError k), ctx, 0).

(** [func (ctx *context) unmarshal(d *json.Decoder) error].  The result is
    the returned error ([None] for [nil]) together with the context and the
    decoder as the call leaves them. *)
Definition unmarshal (d : Decoder) (ctx : context) : option error * context * Decoder :=
  match jparser.CheckRootObjectStart d with
  | (_, Some err, d1) => (Some err, ctx, d1)
  | (false, None, d1) => (None, ctx, d1)
  | (true, None, d1) =>
      match jparser.UnmarshalObject d1 rootMember "root" ctx with
      | (Some err, ctx', d2) => (Some err, ctx', d2)
      | (None, ctx', d2) =>
          let '(err, d3) := jparser.CheckEOF d2 in (err, ctx', d3)
      end
  end.

End Context.

Arguments context : clear implicits.
Arguments Handler : clear implicits.

Section Document.

Context {Evaluable : Type}.
Variable ToLower : string -> string.
Variables unmarshalAttributeDeclarations unmarshalRootPolicy : Handler Evaluable.

(** [RootKey d ctx ks k ctx' d']: parsing the document of [d] from the
    context [ctx], the members of the root object with the keys [ks] are
    parsed without error, and the next member has the key [k]; [ctx'] is
    the context and [d'] the decoder, at the payload of [k], when [k] is
    dispatched. *)
Definition RootKey (d : Decoder) (ctx : context Evaluable) (ks : list string)
    (k : string) (ctx' : context Evaluable) (d' : Decoder) : Prop :=
  exists d1 dk,
    jparser.CheckRootObjectStart d = (true, None, d1) /\
    jparser.Dispatched
      (rootMember ToLower unmarshalAttributeDeclarations unmarshalRootPolicy)
      ctx d1 ks ctx' dk /\
    Decoder_Token dk = (inl (TString k), d').

(** [RootClosed d ctx ks ctx' d']: all members of the root object, with the
    keys [ks], are parsed without error and the object is closed; [d'] is
    the decoder after the closing brace. *)
Definition RootClosed (d : Decoder) (ctx : context Evaluable) (ks : list string)
    (ctx' : context Evaluable) (d' : Decoder) : Prop :=
  exists d1 dk,
    jparser.CheckRootObjectStart d = (true, None, d1) /\
    jparser.Dispatched
      (rootMember ToLower unmarshalAttributeDeclarations unmarshalRootPolicy)
      ctx d1 ks ctx' dk /\
    Decoder_Token dk = (inl (TDelim ObjectEnd), d').

(** [RootAt d ctx ks ctx' dk]: the root object is open and its members with
    the keys [ks] are parsed without error; [ctx'] is the context and [dk]
    the decoder at the position where the next member, or the closing
    brace, is expected. *)
Definition RootAt (d : Decoder) (ctx : context Evaluable) (ks : list string)
    (ctx' : context Evaluable) (dk : Decoder) : Prop :=
  exists d1,
    jparser.CheckRootObjectStart d = (true, None, d1) /\
    jparser.Dispatched
      (rootMember ToLower unmarshalAttributeDeclarations unmarshalRootPolicy)
      ctx d1 ks ctx' dk.

(** The key selects the policies section. *)
Definition isPoliciesKey (k : string) : bool :=
  bool_decide (ToLower k = yastTagPolicies).

End Document.

Section Sections.

Context {Evaluable : Type}.

(** Modelled from the spec: [unmarshalAttributeDeclaration] is not among
    the sources.  One member of the attribute-declarations object: the key
    is the attribute id, the payload the name of its type.  Redeclaration
    of an id is an error; otherwise the attribute is entered in the
    context's map. *)
Definition unmarshalAttributeDeclaration (id : string) : Handler Evaluable := fun d ctx =>
  match jparser.GetString d "attribute data type" with
  | (inr err, d') => (Some err, ctx, consumed d d')
  | (inl t, d') =>
      match attrs ctx !! id with
      | Some _ => (Some (newDuplicateAttributeError id), ctx, consumed d d')
      | None =>
          (None, mkContext (<[id := MakeAttribute id t]> (attrs ctx)) (rootPolicy ctx),
           consumed d d')
      end
  end.

(** Modelled from the spec: [unmarshalAttributeDeclarations] is not among
    the sources.  The payload of the attribute-declarations tag is an
    object with one member per declared attribute. *)
Definition unmarshalAttributeDeclarations : Handler Evaluable := fun d ctx =>
  match jparser.CheckObjectStart d "attribute declarations" with
  | (Some err, d1) => (Some err, ctx, consumed d d1)
  | (None, d1) =>
      let '(err, ctx', d2) :=
        jparser.UnmarshalObject d1 unmarshalAttributeDeclaration "attribute declarations" ctx in
      (err, ctx', consumed d d2)
  end.

(** The parser of policy and policy-set objects is not among the sources
    and the specification leaves their schema to the document format.  It
    is taken as a parameter that reads the payload and yields, besides the
    number of tokens read, either a structural error or the tree together
    with the ids of the attribute designators it contains, in document
    order. *)
Variable unmarshalEntity : Decoder -> (error + Evaluable * list string) * nat.

Definition undeclared (ctx : context Evaluable) (id : string) : bool :=
  bool_decide (attrs ctx !! id = None).

(** Modelled from the spec: [unmarshalRootPolicy] is not among the sources.
    Every attribute a designator refers to has to be declared by the time
    the policies section is parsed; the first one that is not is an error.
    On success the tree becomes the root policy of the context. *)
Definition unmarshalRootPolicy : Handler Evaluable := fun d ctx =>
  match unmarshalEntity d with
  | (inl err, n) => (Some err, ctx, n)
  | (inr (e, refs), n) =>
      match find (undeclared ctx) refs with
      | Some id => (Some (newUnknownAttributeError id), ctx, n)
      | None => (None, mkContext (attrs ctx) (Some e), n)
      end
  end.

End Sections.

(** A minimal policy payload, used to run the parser on documents: a lone
    attribute designator, an object with the one member [attr] whose
    payload is the attribute id.  The tree is the id itself. *)
Definition designatorEntity (d : Decoder) : (error + string * list string) * nat :=
  match pending d with
  | TDelim ObjectStart :: TString "attr" :: TString id :: TDelim ObjectEnd :: _ =>
      (inr (id, [id]), 4)
  | t :: _ => (inl (newObjectTokenError t "{" "policy"), 1)
  | [] =>
      (inl match ending d with
           | None => io_EOF
           | Some msg => json_SyntaxError msg
           end, 0)
  end.

(** Documents to run the parser on.  The first declares the attribute [x]
    and then refers to it; the second refers to it before the declaration;
    the third declares it twice; the fourth has a key that is no tag; the
    last has a token after the root object. *)
Definition docDeclaredThenUsed : list Token :=
  [TDelim ObjectStart;
   TString "Attributes"; TDelim ObjectStart; TString "x"; TString "string"; TDelim ObjectEnd;
   TString "POLICIES"; TDelim ObjectStart; TString "attr"; TString "x"; TDelim ObjectEnd;
   TDelim ObjectEnd].

Definition docUsedThenDeclared : list Token :=
  [TDelim ObjectStart;
   TString "policies"; TDelim ObjectStart; TString "attr"; TString "x"; TDelim ObjectEnd;
   TString "attributes"; TDelim ObjectStart; TString "x"; TString "string"; TDelim ObjectEnd;
   TDelim ObjectEnd].

Definition docRedeclared : list Token :=
  [TDelim ObjectStart;
   TString "attributes"; TDelim ObjectStart;
     TString "x"; TString "string"; TString "x"; TString "integer"; TDelim ObjectEnd;
   TDelim ObjectEnd].

Definition docUnknownKey : list Token :=
  [TDelim ObjectStart;
   TString "attributes"; TDelim ObjectStart; TString "x"; TString "string"; TDelim ObjectEnd;
   TString "rules"; TNull;
   TDelim ObjectEnd].

Definition docTrailing : list Token :=
  [TDelim ObjectStart; TDelim ObjectEnd; TNull].

(** The context after the declaration of [x] as a string. *)
Definition ctxDeclared : context string :=
  mkContext {["x" := MakeAttribute "x" "string"]} None.

(** The context after the declaration of [x] and a policy that is the
    designator of [x]. *)
Definition ctxParsed : context string :=
  mkContext {["x" := MakeAttribute "x" "string"]} (Some "x").

(** The parser run from a fresh context on a token sequence that ends
    cleanly, with the section parsers above over the minimal payload. *)
Definition parseTokens (toks : list Token) : option error * context string * Decoder :=
  unmarshal strings.ToLowerASCII unmarshalAttributeDeclarations
    (unmarshalRootPolicy designatorEntity) (mkDecoder toks None) newContext.

End jast.

(** ** Package [pdp]: combining algorithms *)

Module pdp.

(** Modelled from the spec: the effect of a decision; the package is not
    among the sources. *)
Inductive Effect := Permit | Deny | NotApplicable | Indeterminate.

#[global] Instance Effect_eq_dec : EqDecision Effect.
Proof. solve_decision. Defined.

(** A resolved obligation: an attribute id and its value. *)
Definition Obligation : Type := string * string.

(** Modelled from the spec: the result of evaluating a node of the policy
    tree, an effect and the obligations attached to it. *)
Record Response := mkResponse {
  effect : Effect;
  obligations : list Obligation
}.

Definition hasEffect (e : Effect) (r : Response) : bool :=
  bool_decide (effect r = e).

(** Modelled from the spec: the Deny-overrides combining algorithm is not
    among the sources.  It is given the results of all children, in
    declared order: if any is Deny the result is Deny, with that child's
    obligations (the first such child, as declared order decides which
    obligations are reported); else if any is Indeterminate the result is
    Indeterminate; else if any is Permit the result is Permit, with the
    obligations of the winning child; else it is NotApplicable. *)
Definition denyOverrides (children : list Response) : Response :=
  match find (hasEffect Deny) children with
  | Some r => mkResponse Deny (obligations r)
  | None =>
      if existsb (hasEffect Indeterminate) children
      then mkResponse Indeterminate []
      else
        match find (hasEffect Permit) children with
        | Some r => mkResponse Permit (obligations r)
        | None => mkResponse NotApplicable []
        end
  end.

End pdp.

(** ** Command [pdpserver]: tracing *)

Module pdpserver.

(** [strings.Index]: the position of the first occurrence of [substr] in
    [s], or -1. *)
Definition strings_Index (s substr : string) : Z :=
  match String.index 0 substr s with
  | Some n => Z.of_nat n
  | None => (-1)%Z
  end.

Section Tracing.

(** The tracer of [opentracing-go] and the collector, recorder and
    constructors of [zipkin-go-opentracing] are external libraries. *)
Context {Tracer Collector Recorder : Type}.
Variable zipkin_NewHTTPCollector : string -> option Collector * option error.
Variable zipkin_NewRecorder : option Collector -> bool -> string -> string -> Recorder.
Variable zipkin_NewTracer : Recorder -> option Tracer * option error.

Definition setupZipkin (tracingEP : string) : option Tracer * option error :=
  let tracingEP :=
    if decide (strings_Index tracingEP "http" = (-1)%Z)
    then "http://" +:+ tracingEP +:+ "/api/v1/spans"
    else tracingEP in
  match zipkin_NewHTTPCollector tracingEP with
  | (_, Some err) => (None, Some err)
  | (collector, None) =>
      let recorder := zipkin_NewRecorder collector false EmptyString "PDP" in
      zipkin_NewTracer recorder
  end.

Definition InitTracing (tracingType tracingEP : string) : option Tracer * option error :=
  if decide (tracingEP = EmptyString) then (None, None)
  else if decide (tracingType = "zipkin") then setupZipkin tracingEP
  else (None, Some (fmt_Errorf ("Invalid tracing type: " +:+ tracingType))).

End Tracing.

End pdpserver.

(** * Properties *)

(** ** The member loop of [jparser.UnmarshalObject] *)

Section UnmarshalObjectFacts.

Context {St : Type}.
Variable f : string -> Decoder -> St -> option error * St * nat.
Variable desc : string.

Lemma advance_0 d : advance 0 d = d.
Proof. by destruct d. Qed.

(** The loop, read as the statement it models: take a token, then act on
    its kind. *)
Lemma UnmarshalObject_unfold d s :
  jparser.UnmarshalObject d f desc s =
  match Decoder_Token d with
  | (inr err, d') => (Some err, s, d')
  | (inl (TString k), d') =>
      match f k d' s with
      | (Some err, s', n) => (Some err, s', advance n d')
      | (None, s', n) => jparser.UnmarshalObject (advance n d') f desc s'
      end
  | (inl (TDelim delim), d') =>
      if decide (Delim_String delim = jparser.delimObjectEnd)
      then (None, s, d')
      else (Some (newObjectEndDelimiterError delim jparser.delimObjectEnd desc), s, d')
  | (inl t, d') => (Some (newObjectTokenError t jparser.delimObjectEnd desc), s, d')
  end.
Proof.
  destruct d as [toks e]. unfold jparser.UnmarshalObject, Decoder_Token. simpl.
  destruct toks as [|t rest]; simp loop; [done|].
  destruct t as [delim|b|lit|k|]; simp loop; try done.
  destruct (f k _ s) as [[[err|] s'] n]; simpl; done.
Qed.

Lemma UnmarshalObject_member_error d s k d1 e s1 n :
  Decoder_Token d = (inl (TString k), d1) ->
  f k d1 s = (Some e, s1, n) ->
  jparser.UnmarshalObject d f desc s = (Some e, s1, advance n d1).
Proof. intros Ht Hf. by rewrite UnmarshalObject_unfold, Ht, Hf. Qed.

Lemma UnmarshalObject_member_ok d s k d1 s1 n :
  Decoder_Token d = (inl (TString k), d1) ->
  f k d1 s = (None, s1, n) ->
  jparser.UnmarshalObject d f desc s = jparser.UnmarshalObject (advance n d1) f desc s1.
Proof. intros Ht Hf. by rewrite UnmarshalObject_unfold, Ht, Hf. Qed.

Lemma UnmarshalObject_end d s d' :
  Decoder_Token d = (inl (TDelim ObjectEnd), d') ->
  jparser.UnmarshalObject d f desc s = (None, s, d').
Proof. intros Ht. by rewrite UnmarshalObject_unfold, Ht. Qed.

(** Members that were accepted do not change what the rest of the loop
    returns. *)
Lemma UnmarshalObject_dispatched s d ks s' d' :
  jparser.Dispatched f s d ks s' d' ->
  jparser.UnmarshalObject d f desc s = jparser.UnmarshalObject d' f desc s'.
Proof.
  induction 1 as [|s d k d1 s1 n ks s' d' Ht Hf _ IH]; [done|].
  by rewrite (UnmarshalObject_member_ok _ _ _ _ _ _ Ht Hf).
Qed.

Lemma Decoder_Token_length d t d' :
  Decoder_Token d = (inl t, d') -> length (pending d) = S (length (pending d')).
Proof.
  unfold Decoder_Token. destruct (pending d) as [|t0 rest]; [done|].
  intros [= _ <-]. done.
Qed.

(** The loop succeeds only by accepting every member up to the closing
    brace. *)
Lemma UnmarshalObject_success_inv d s s' d' :
  jparser.UnmarshalObject d f desc s = (None, s', d') ->
  exists ks dk,
    jparser.Dispatched f s d ks s' dk /\
    Decoder_Token dk = (inl (TDelim ObjectEnd), d').
Proof.
  remember (length (pending d)) as m eqn:Hm.
  revert d s Hm. induction m as [m IH] using lt_wf_ind. intros d s Hm.
  rewrite UnmarshalObject_unfold.
  destruct (Decoder_Token d) as [[t|err] d1] eqn:Ht; [|done].
  destruct t as [delim|b|lit|k|]; try done.
  - case_decide as Hd; [|done]. intros [= <- <-].
    exists [], d. split; [constructor|].
    by destruct delim.
  - destruct (f k d1 s) as [[[err|] s1] n] eqn:Hf; [done|].
    intros Hrun.
    apply Decoder_Token_length in Ht as Hlen.
    destruct (IH (length (pending (advance n d1)))) with (d := advance n d1) (s := s1)
      as (ks & dk & Hdisp & Hend); [|done|done|].
    + simpl. rewrite length_drop. lia.
    + exists (k :: ks), dk. split; [|done]. by econstructor.
Qed.

End UnmarshalObjectFacts.

(** ** [context.unmarshal] *)

Section RootParser.

Import jast.

Context {Evaluable : Type}.
Variable ToLower : string -> string.
Variables hAttributes hPolicies : Handler Evaluable.

Local Abbreviation rootMember := (rootMember ToLower hAttributes hPolicies).
Local Abbreviation unmarshal := (unmarshal ToLower hAttributes hPolicies).
Local Abbreviation RootKey := (RootKey ToLower hAttributes hPolicies).
Local Abbreviation RootClosed := (RootClosed ToLower hAttributes hPolicies).

(** The callback on a key that lower-cases to neither tag. *)
Lemma rootMember_unknown k d (ctx : context Evaluable) :
  ToLower k <> yastTagAttributes ->
  ToLower k <> yastTagPolicies ->
  rootMember k d ctx = (Some (newUnknownAttributeError k), ctx, 0).
Proof. intros Ha Hp. unfold jast.rootMember. by rewrite !decide_False. Qed.

Lemma rootMember_attributes k d (ctx : context Evaluable) :
  ToLower k = yastTagAttributes -> rootMember k d ctx = hAttributes d ctx.
Proof. intros Ha. unfold jast.rootMember. by rewrite decide_True. Qed.

Lemma rootMember_policies k d (ctx : context Evaluable) :
  ToLower k = yastTagPolicies -> rootMember k d ctx = hPolicies d ctx.
Proof.
  intros Hp. unfold jast.rootMember.
  rewrite decide_False, decide_True; [done..|].
  rewrite Hp. by intros [=].
Qed.

(** What [unmarshal] returns once the root object is open. *)
Lemma unmarshal_open d (ctx : context Evaluable) d1 :
  jparser.CheckRootObjectStart d = (true, None, d1) ->
  unmarshal d ctx =
  match jparser.UnmarshalObject d1 rootMember "root" ctx with
  | (Some err, ctx', d2) => (Some err, ctx', d2)
  | (None, ctx', d2) => let '(err, d3) := jparser.CheckEOF d2 in (err, ctx', d3)
  end.
Proof. intros Hs. unfold jast.unmarshal. by rewrite Hs. Qed.

(** An error of the callback at a key the loop arrives at is what
    [unmarshal] returns, with context and decoder as the callback left
    them. *)
Lemma unmarshal_member_error d (ctx : context Evaluable) ks k ctx' d' e ctx'' n :
  RootKey d ctx ks k ctx' d' ->
  rootMember k d' ctx' = (Some e, ctx'', n) ->
  unmarshal d ctx = (Some e, ctx'', advance n d').
Proof.
  intros (d1 & dk & Hstart & Hdisp & Htok) Hf.
  rewrite (unmarshal_open _ _ _ Hstart).
  rewrite (UnmarshalObject_dispatched _ _ _ _ _ _ _ Hdisp).
  by rewrite (UnmarshalObject_member_error _ _ _ _ _ _ _ _ _ Htok Hf).
Qed.

Lemma CheckRootObjectStart_absent d d' :
  jparser.CheckRootObjectStart d = (false, None, d') <->
  pending d = [] /\ ending d = None /\ d' = d.
Proof.
  unfold jparser.CheckRootObjectStart, Decoder_Token.
  destruct d as [[|t rest] [msg|]]; simpl; split;
    try (intros (? & ? & ?); simplify_eq; done);
    try (by intros [= <-]);
    try (destruct t as [[]| | | |]; simpl; try case_decide; by intros [=]).
Qed.

(** Claim C1.  When the member loop of the root object arrives at a key that
    lower-cases neither to the attribute-declarations tag nor to the
    policies tag, the callback returns the unknown-attribute error for that
    very key without touching context or decoder, and [unmarshal] returns
    that error and nothing else.  Hence no such key is skipped: when
    [unmarshal] succeeds, every key the loop arrived at is one of the two
    tags. *)
Theorem unknown_root_key_is_error d (ctx : context Evaluable) ks k ctx' d' :
  RootKey d ctx ks k ctx' d' ->
  (ToLower k <> yastTagAttributes ->
   ToLower k <> yastTagPolicies ->
     rootMember k d' ctx' = (Some (newUnknownAttributeError k), ctx', 0) /\
     unmarshal d ctx = (Some (newUnknownAttributeError k), ctx', d')) /\
  (fst (fst (unmarshal d ctx)) = None ->
     ToLower k = yastTagAttributes \/ ToLower k = yastTagPolicies).
Proof.
  intros Hkey.
  assert (ToLower k <> yastTagAttributes ->
          ToLower k <> yastTagPolicies ->
          rootMember k d' ctx' = (Some (newUnknownAttributeError k), ctx', 0) /\
          unmarshal d ctx = (Some (newUnknownAttributeError k), ctx', d')) as Hunknown.
  { intros Ha Hp.
    pose proof (rootMember_unknown k d' ctx' Ha Hp) as Hf.
    split; [done|].
    rewrite (unmarshal_member_error _ _ _ _ _ _ _ _ _ Hkey Hf).
    by rewrite advance_0. }
  split; [done|]. intros Hok.
  destruct (decide (ToLower k = yastTagAttributes)) as [|Ha]; [by left|].
  destruct (decide (ToLower k = yastTagPolicies)) as [|Hp]; [by right|].
  destruct (Hunknown Ha Hp) as [_ Hrun]. by rewrite Hrun in Hok.
Qed.

(** Claim C3.  When the section handler selected by a key of the root object
    returns an error, [unmarshal] returns that error and nothing else; the
    context is as the failing handler left it and the decoder stands where
    that handler stopped reading, so no later key has been read. *)
Theorem handler_error_stops_unmarshal d (ctx : context Evaluable) ks k ctx' d' e ctx'' n :
  RootKey d ctx ks k ctx' d' ->
  (ToLower k = yastTagAttributes /\ hAttributes d' ctx' = (Some e, ctx'', n)) \/
  (ToLower k = yastTagPolicies /\ hPolicies d' ctx' = (Some e, ctx'', n)) ->
  unmarshal d ctx = (Some e, ctx'', advance n d').
Proof.
  intros Hkey [[Hk Hh]|[Hk Hh]];
    apply (unmarshal_member_error _ _ _ _ _ _ _ _ _ Hkey).
  - by rewrite rootMember_attributes.
  - by rewrite rootMember_policies.
Qed.

(** Claim C7.  When the root-object-start check reports absence without an
    error, [unmarshal] returns [nil] and leaves the context as it was; for
    the context of [newContext] that is no root policy and no attribute
    declaration. *)
Theorem empty_document_parses d d' :
  jparser.CheckRootObjectStart d = (false, None, d') ->
  (forall ctx : context Evaluable, unmarshal d ctx = (None, ctx, d')) /\
  exists ctx' : context Evaluable,
    unmarshal d newContext = (None, ctx', d') /\
    rootPolicy ctx' = None /\ attrs ctx' = ∅.
Proof.
  intros Hs.
  assert (forall ctx : context Evaluable, unmarshal d ctx = (None, ctx, d')) as H.
  { intros ctx. unfold jast.unmarshal. by rewrite Hs. }
  split; [done|]. exists newContext. by rewrite H.
Qed.

(** Claim C8.  Once the root object is closed, [unmarshal] returns what the
    end-of-input check returns on the rest of the input: the missing-EOF
    error for a further token, the decoder's error for malformed text, and
    [nil] only if the input ends there. *)
Theorem trailing_content_is_error d (ctx : context Evaluable) ks ctx' dc :
  RootClosed d ctx ks ctx' dc ->
  unmarshal d ctx = (fst (jparser.CheckEOF dc), ctx', snd (jparser.CheckEOF dc)) /\
  (forall t rest, pending dc = t :: rest ->
     unmarshal d ctx = (Some (newMissingEOFError t), ctx', mkDecoder rest (ending dc))) /\
  (forall msg, pending dc = [] -> ending dc = Some msg ->
     unmarshal d ctx = (Some (json_SyntaxError msg), ctx', dc)) /\
  (pending dc = [] -> ending dc = None -> unmarshal d ctx = (None, ctx', dc)).
Proof.
  intros (d1 & dk & Hstart & Hdisp & Htok).
  assert (unmarshal d ctx = (fst (jparser.CheckEOF dc), ctx', snd (jparser.CheckEOF dc))) as H.
  { rewrite (unmarshal_open _ _ _ Hstart).
    rewrite (UnmarshalObject_dispatched _ _ _ _ _ _ _ Hdisp).
    rewrite (UnmarshalObject_end _ _ _ _ _ Htok).
    by destruct (jparser.CheckEOF dc). }
  split; [done|]. rewrite H. clear.
  unfold jparser.CheckEOF, Decoder_Token.
  destruct dc as [toks e]; simpl.
  split; [|split].
  - by intros t rest ->.
  - by intros msg -> ->.
  - by intros -> ->.
Qed.

(** Keys accepted by the callback leave a root policy behind exactly when
    one of them selects the policies section. *)
Lemma Dispatched_rootPolicy (ctx : context Evaluable) d ks ctx' d' :
  (forall d ctx ctx' n, hAttributes d ctx = (None, ctx', n) ->
     rootPolicy ctx' = rootPolicy ctx) ->
  (forall d ctx ctx' n, hPolicies d ctx = (None, ctx', n) ->
     is_Some (rootPolicy ctx')) ->
  jparser.Dispatched rootMember ctx d ks ctx' d' ->
  if existsb (isPoliciesKey ToLower) ks
  then is_Some (rootPolicy ctx')
  else rootPolicy ctx' = rootPolicy ctx.
Proof.
  intros HA HP. induction 1 as [|s d k d1 s1 n ks s' d' Ht Hf _ IH]; [done|].
  simpl. unfold isPoliciesKey at 1.
  destruct (decide (ToLower k = yastTagPolicies)) as [Hk|Hk].
  - rewrite bool_decide_true by done. simpl.
    rewrite rootMember_policies in Hf by done. apply HP in Hf.
    destruct (existsb _ ks); [done|]. by rewrite IH.
  - rewrite bool_decide_false by done. simpl.
    destruct (decide (ToLower k = yastTagAttributes)) as [Hk'|Hk'].
    + rewrite rootMember_attributes in Hf by done. apply HA in Hf.
      destruct (existsb _ ks); [done|]. by rewrite IH.
    + by rewrite rootMember_unknown in Hf.
Qed.

(** Claim C4, amended.  A successful [unmarshal] leaves at most one root
    policy in the context, and it may leave none.  Either the document has
    no root object and the context is untouched, or every member of the
    root object was parsed; then the context holds a root policy if one of
    the keys selects the policies section, and otherwise its root policy
    slot is as before the call.  This assumes what the specification says
    of the two section parsers: the attribute-declarations parser leaves
    the root policy alone and the root-policy parser stores the policy it
    parsed. *)
Theorem success_holds_at_most_one_root_policy d (ctx : context Evaluable) ctx' d' :
  (forall d ctx ctx' n, hAttributes d ctx = (None, ctx', n) ->
     rootPolicy ctx' = rootPolicy ctx) ->
  (forall d ctx ctx' n, hPolicies d ctx = (None, ctx', n) ->
     is_Some (rootPolicy ctx')) ->
  unmarshal d ctx = (None, ctx', d') ->
  (jparser.CheckRootObjectStart d = (false, None, d') /\ ctx' = ctx) \/
  (exists ks dc,
     RootClosed d ctx ks ctx' dc /\
     if existsb (isPoliciesKey ToLower) ks
     then is_Some (rootPolicy ctx')
     else rootPolicy ctx' = rootPolicy ctx).
Proof.
  intros HA HP. unfold jast.unmarshal.
  destruct (jparser.CheckRootObjectStart d) as [[[] [err|]] d1] eqn:Hs; try done;
    [|intros [= <- <-]; by left].
  destruct (jparser.UnmarshalObject d1 _ _ ctx) as [[[err|] c] d2] eqn:Hrun; [done|].
  destruct (jparser.CheckEOF d2) as [err d3]. intros [= -> -> ->].
  right. apply UnmarshalObject_success_inv in Hrun as (ks & dk & Hdisp & Hend).
  exists ks, d2. split; [by exists d1, dk|].
  by apply (Dispatched_rootPolicy ctx d1 ks ctx' dk).
Qed.

End RootParser.

(** ** Case-insensitive dispatch *)

Section Casing.

Import strings.




Context {Evaluable : Type}.
Variable ToLower : string -> string.
Variables hAttributes hPolicies : jast.Handler Evaluable.

Local Abbreviation rootMember := (jast.rootMember ToLower hAttributes hPolicies).


End Casing.

(** ** Declared before use, declared once *)

Section Declarations.

Import jast.

Context {Evaluable : Type}.
Variable ToLower : string -> string.
Variable unmarshalEntity : Decoder -> (error + Evaluable * list string) * nat.

Local Abbreviation hAttributes := (unmarshalAttributeDeclarations (Evaluable := Evaluable)).
Local Abbreviation hPolicies := (unmarshalRootPolicy unmarshalEntity).
Local Abbreviation unmarshal := (unmarshal ToLower hAttributes hPolicies).
Local Abbreviation RootKey := (RootKey ToLower hAttributes hPolicies).

(** The attribute-declarations parser leaves the root policy alone. *)
Lemma declarations_keep_rootPolicy d (ctx ctx' : context Evaluable) ids d' :
  jparser.Dispatched unmarshalAttributeDeclaration ctx d ids ctx' d' ->
  rootPolicy ctx' = rootPolicy ctx.
Proof.
  induction 1 as [|s d k d1 s1 n ks s' d' Ht Hf _ IH]; [done|].
  rewrite IH. unfold unmarshalAttributeDeclaration in Hf.
  destruct (jparser.GetString d1 _) as [[t|err] d2]; [|done].
  destruct (attrs s !! k); [done|]. by injection Hf as <- _.
Qed.

Lemma unmarshalAttributeDeclarations_rootPolicy d (ctx ctx' : context Evaluable) n :
  hAttributes d ctx = (None, ctx', n) -> rootPolicy ctx' = rootPolicy ctx.
Proof.
  unfold unmarshalAttributeDeclarations.
  destruct (jparser.CheckObjectStart d _) as [[err|] d1]; [done|].
  destruct (jparser.UnmarshalObject d1 _ _ ctx) as [[err c] d2] eqn:Hrun.
  intros [= -> -> _].
  apply UnmarshalObject_success_inv in Hrun as (ks & dk & Hdisp & _).
  by apply declarations_keep_rootPolicy in Hdisp.
Qed.

Lemma unmarshalRootPolicy_rootPolicy d (ctx ctx' : context Evaluable) n :
  hPolicies d ctx = (None, ctx', n) -> is_Some (rootPolicy ctx').
Proof.
  unfold unmarshalRootPolicy.
  destruct (unmarshalEntity d) as [[err|[e refs]] m]; [done|].
  destruct (find _ refs); [done|]. by intros [= <- _].
Qed.

(** Ids declared earlier in the section, or before it, are in the map when
    a later member is reached. *)
Lemma declarations_declared d (ctx ctx' : context Evaluable) ids d' id :
  jparser.Dispatched unmarshalAttributeDeclaration ctx d ids ctx' d' ->
  id ∈ ids \/ is_Some (attrs ctx !! id) ->
  is_Some (attrs ctx' !! id).
Proof.
  induction 1 as [|s d k d1 s1 n ks s' d' Ht Hf _ IH].
  - intros [Hin|H]; [|done]. by apply elem_of_nil in Hin.
  - intros Hid. apply IH.
    unfold unmarshalAttributeDeclaration in Hf.
    destruct (jparser.GetString d1 _) as [[t|err] d2]; [|done].
    destruct (attrs s !! k) eqn:Hk; [done|]. injection Hf as <- _.
    simpl. destruct (decide (k = id)) as [->|Hne].
    + right. rewrite lookup_insert_eq. by eexists.
    + rewrite lookup_insert_ne by done.
      destruct Hid as [Hin|H]; [|by right].
      apply elem_of_cons in Hin as [->|Hin]; [done|by left].
Qed.

(** A declaration of an id that is already in the map fails. *)
Lemma redeclaration_fails id d (ctx : context Evaluable) :
  is_Some (attrs ctx !! id) ->
  exists e n, unmarshalAttributeDeclaration id d ctx = (Some e, ctx, n).
Proof.
  intros [a Ha]. unfold unmarshalAttributeDeclaration.
  destruct (jparser.GetString d _) as [[t|err] d2]; [|by eexists _, _].
  rewrite Ha. by eexists _, _.
Qed.

(** Claim C6.  With the section parsers as the specification describes
    them, run by [unmarshal] in document order over the one context:
    a policies section that refers to an attribute id which is not in the
    context's map when the section is reached fails with the
    unknown-attribute error of the first such id; and an
    attribute-declarations section fails at a member whose id was declared
    earlier in the section or was in the map when the section was
    reached. *)
Theorem undeclared_or_redeclared_attribute_is_error
    d (ctx : context Evaluable) ks k ctx' d' :
  RootKey d ctx ks k ctx' d' ->
  (forall tree refs n id,
     ToLower k = yastTagPolicies ->
     unmarshalEntity d' = (inr (tree, refs), n) ->
     id ∈ refs -> attrs ctx' !! id = None ->
     exists id0, id0 ∈ refs /\ attrs ctx' !! id0 = None /\
       unmarshal d ctx = (Some (newUnknownAttributeError id0), ctx', advance n d')) /\
  (forall d1 ids c dk id dv,
     ToLower k = yastTagAttributes ->
     Decoder_Token d' = (inl (TDelim ObjectStart), d1) ->
     jparser.Dispatched unmarshalAttributeDeclaration ctx' d1 ids c dk ->
     Decoder_Token dk = (inl (TString id), dv) ->
     id ∈ ids \/ is_Some (attrs ctx' !! id) ->
     exists e dz, unmarshal d ctx = (Some e, c, dz)).
Proof.
  intros Hkey. split.
  - intros tree refs n id Hk Hparse Hin Hnone.
    destruct (find (undeclared ctx') refs) as [id0|] eqn:Hfind.
    + pose proof (find_some _ _ Hfind) as [Hin0 Hun].
      apply list_elem_of_In in Hin0. apply bool_decide_eq_true in Hun.
      exists id0. split; [done|]. split; [done|].
      eapply unmarshal_member_error; [exact Hkey|].
      rewrite rootMember_policies by done.
      unfold unmarshalRootPolicy. by rewrite Hparse, Hfind.
    + apply list_elem_of_In in Hin.
      pose proof (find_none _ _ Hfind _ Hin) as Hun.
      apply bool_decide_eq_false in Hun. done.
  - intros d1 ids c dk id dv Hk Hopen Hdisp Hid Hdecl.
    destruct (redeclaration_fails id dv c) as (e & n & Hf).
    { by eapply declarations_declared. }
    exists e. eexists.
    eapply unmarshal_member_error; [exact Hkey|].
    rewrite rootMember_attributes by done.
    unfold unmarshalAttributeDeclarations, jparser.CheckObjectStart.
    rewrite Hopen. simpl.
    rewrite (UnmarshalObject_dispatched _ _ _ _ _ _ _ Hdisp).
    rewrite (UnmarshalObject_member_error _ _ _ _ _ _ _ _ _ Hid Hf).
    reflexivity.
Qed.

End Declarations.

(** ** Deny-overrides *)

Section DenyOverrides.

Import pdp.

Lemma find_hasEffect_None e (children : list Response) :
  Forall (fun r => effect r <> e) children -> find (hasEffect e) children = None.
Proof.
  induction 1 as [|r l Hr _ IH]; [done|]. simpl.
  unfold hasEffect at 1. by rewrite bool_decide_false.
Qed.

Lemma find_hasEffect_Some e (children : list Response) :
  Exists (fun r => effect r = e) children ->
  exists r, find (hasEffect e) children = Some r /\ r ∈ children /\ effect r = e.
Proof.
  induction 1 as [r l Hr|r l _ IH]; simpl; unfold hasEffect at 1.
  - rewrite bool_decide_true by done. exists r. split; [done|]. split; [left|done].
  - destruct IH as (r' & Hfind & Hin & Hr').
    case_bool_decide.
    + exists r. split; [done|]. split; [left|done].
    + exists r'. split; [done|]. split; [by right|done].
Qed.

Lemma existsb_hasEffect e (children : list Response) :
  existsb (hasEffect e) children = true <-> Exists (fun r => effect r = e) children.
Proof.
  rewrite existsb_exists, Exists_exists. unfold hasEffect.
  split; intros (r & Hin & Hr); exists r.
  - apply list_elem_of_In in Hin. by apply bool_decide_eq_true in Hr.
  - apply list_elem_of_In in Hin. by rewrite bool_decide_eq_true.
Qed.

Lemma existsb_hasEffect_false e (children : list Response) :
  Forall (fun r => effect r <> e) children -> existsb (hasEffect e) children = false.
Proof.
  induction 1 as [|r l Hr _ IH]; [done|]. simpl.
  unfold hasEffect at 1. by rewrite bool_decide_false.
Qed.

(** Claim C5.  Over the results of all children in declared order,
    Deny-overrides returns Deny with the obligations of a denying child if
    any child is Deny; else Indeterminate if any is Indeterminate; else
    Permit if any is Permit; else NotApplicable.  Whatever the obligations,
    [Permit, Deny, NotApplicable] gives Deny with the obligations of the
    Deny and [Permit, Indeterminate] gives Indeterminate. *)
Theorem denyOverrides_table (children : list Response) :
  (Exists (fun r => effect r = Deny) children ->
     effect (denyOverrides children) = Deny /\
     exists r, r ∈ children /\ effect r = Deny /\
       obligations (denyOverrides children) = obligations r) /\
  (Forall (fun r => effect r <> Deny) children ->
   Exists (fun r => effect r = Indeterminate) children ->
     effect (denyOverrides children) = Indeterminate) /\
  (Forall (fun r => effect r <> Deny) children ->
   Forall (fun r => effect r <> Indeterminate) children ->
   Exists (fun r => effect r = Permit) children ->
     effect (denyOverrides children) = Permit) /\
  (Forall (fun r => effect r <> Deny) children ->
   Forall (fun r => effect r <> Indeterminate) children ->
   Forall (fun r => effect r <> Permit) children ->
     effect (denyOverrides children) = NotApplicable) /\
  (forall o1 o2 o3,
     denyOverrides [mkResponse Permit o1; mkResponse Deny o2; mkResponse NotApplicable o3]
     = mkResponse Deny o2) /\
  (forall o1 o2,
     effect (denyOverrides [mkResponse Permit o1; mkResponse Indeterminate o2])
     = Indeterminate).
Proof.
  unfold denyOverrides. split; [|split; [|split; [|split; [|split]]]]; [| | | |done..].
  - intros HD. apply find_hasEffect_Some in HD as (r & -> & Hin & Hr).
    split; [done|]. by exists r.
  - intros HD HI. rewrite (find_hasEffect_None _ _ HD).
    apply existsb_hasEffect in HI. by rewrite HI.
  - intros HD HI HP. rewrite (find_hasEffect_None _ _ HD).
    rewrite (existsb_hasEffect_false _ _ HI).
    apply find_hasEffect_Some in HP as (r & -> & _). done.
  - intros HD HI HP. rewrite (find_hasEffect_None _ _ HD).
    rewrite (existsb_hasEffect_false _ _ HI).
    by rewrite (find_hasEffect_None _ _ HP).
Qed.

End DenyOverrides.

(** ** [InitTracing] *)

Section TracingFacts.

Import pdpserver.

Context {Tracer Collector Recorder : Type}.
Variable zipkin_NewHTTPCollector : string -> option Collector * option error.
Variable zipkin_NewRecorder : option Collector -> bool -> string -> string -> Recorder.
Variable zipkin_NewTracer : Recorder -> option Tracer * option error.

Local Abbreviation InitTracing :=
  (InitTracing zipkin_NewHTTPCollector zipkin_NewRecorder zipkin_NewTracer).

(** Claim C9.  With an empty endpoint [InitTracing] returns a nil tracer and
    a nil error whatever the tracing type is; with a non-empty endpoint and
    a tracing type other than [zipkin] it returns a nil tracer and the
    error whose message is the invalid-type text followed by the type. *)
Theorem InitTracing_endpoint_and_type :
  (forall tracingType, InitTracing tracingType EmptyString = (None, None)) /\
  (forall tracingType tracingEP,
     tracingEP <> EmptyString ->
     tracingType <> "zipkin" ->
     InitTracing tracingType tracingEP
     = (None, Some (fmt_Errorf ("Invalid tracing type: " +:+ tracingType)))).
Proof.
  split.
  - intros ty. unfold pdpserver.InitTracing. by rewrite decide_True.
  - intros ty ep Hep Hty. unfold pdpserver.InitTracing.
    by rewrite !decide_False.
Qed.

End TracingFacts.

(** ** The parser on concrete documents *)

Section Documents.

Import jast.

Local Abbreviation hA := (unmarshalAttributeDeclarations (Evaluable := string)).
Local Abbreviation hP := (unmarshalRootPolicy designatorEntity).
Local Abbreviation lower := strings.ToLowerASCII.

(** Builds the run of the member loop over the keys listed in the goal. *)
Ltac dispatch :=
  repeat (eapply jparser.dispatched_member;
          [reflexivity | vm_compute; reflexivity | ]);
  vm_compute; apply jparser.dispatched_none.

Ltac root_position :=
  eexists _, _; split; [reflexivity | split; [dispatch | reflexivity]].


(** In document order: the declaration before the use parses, the use
    before the declaration does not. *)
Example declared_then_used_parses :
  parseTokens docDeclaredThenUsed = (None, ctxParsed, mkDecoder [] None).
Proof. vm_compute. reflexivity. Qed.

Example used_then_declared_fails :
  fst (fst (parseTokens docUsedThenDeclared)) = Some (newUnknownAttributeError "x").
Proof. vm_compute. reflexivity. Qed.

Lemma unknown_root_key_is_error_witness :
  parseTokens docUnknownKey
  = (Some (newUnknownAttributeError "rules"), ctxDeclared,
     mkDecoder [TNull; TDelim ObjectEnd] None).
Proof.
  unfold parseTokens.
  apply (proj1 (unknown_root_key_is_error lower hA hP
                  (mkDecoder docUnknownKey None) newContext ["attributes"] "rules"
                  ctxDeclared (mkDecoder [TNull; TDelim ObjectEnd] None)
                  ltac:(root_position)));
    vm_compute; discriminate.
Defined.


Lemma handler_error_stops_unmarshal_witness :
  parseTokens docRedeclared
  = (Some (newDuplicateAttributeError "x"), ctxDeclared,
     mkDecoder [TDelim ObjectEnd; TDelim ObjectEnd] None) /\
  parseTokens docUsedThenDeclared
  = (Some (newUnknownAttributeError "x"), newContext,
     mkDecoder (drop 6 docUsedThenDeclared) None).
Proof.
  unfold parseTokens. split.
  - rewrite (handler_error_stops_unmarshal lower hA hP _ _ [] "attributes" newContext
               (mkDecoder (drop 2 docRedeclared) None)
               (newDuplicateAttributeError "x") ctxDeclared 5);
      [reflexivity | root_position | left; split; vm_compute; reflexivity].
  - rewrite (handler_error_stops_unmarshal lower hA hP _ _ [] "policies" newContext
               (mkDecoder (drop 2 docUsedThenDeclared) None)
               (newUnknownAttributeError "x") newContext 4);
      [reflexivity | root_position | right; split; vm_compute; reflexivity].
Defined.

(** Claim C4, as stated, fails: the empty input and the empty root object
    are both accepted, and the context then holds no root policy. *)
Lemma success_without_root_policy :
  fst (fst (parseTokens [])) = None /\
  rootPolicy (snd (fst (parseTokens []))) = None /\
  fst (fst (parseTokens [TDelim ObjectStart; TDelim ObjectEnd])) = None /\
  rootPolicy (snd (fst (parseTokens [TDelim ObjectStart; TDelim ObjectEnd]))) = None.
Proof. vm_compute. done. Qed.

Lemma success_holds_at_most_one_root_policy_witness :
  (jparser.CheckRootObjectStart (mkDecoder docDeclaredThenUsed None)
   = (false, None, mkDecoder [] None) /\ ctxParsed = newContext) \/
  (exists ks dc,
     RootClosed lower hA hP (mkDecoder docDeclaredThenUsed None) newContext ks ctxParsed dc /\
     if existsb (isPoliciesKey lower) ks
     then is_Some (rootPolicy ctxParsed)
     else rootPolicy ctxParsed = rootPolicy (newContext (Evaluable := string))).
Proof.
  apply (success_holds_at_most_one_root_policy lower hA hP).
  - apply unmarshalAttributeDeclarations_rootPolicy.
  - apply unmarshalRootPolicy_rootPolicy.
  - vm_compute. reflexivity.
Defined.

Lemma undeclared_or_redeclared_attribute_is_error_witness :
  (exists id0, id0 ∈ ["x"] /\ attrs (newContext (Evaluable := string)) !! id0 = None /\
     parseTokens docUsedThenDeclared
     = (Some (newUnknownAttributeError id0), newContext,
        advance 4 (mkDecoder (drop 2 docUsedThenDeclared) None))) /\
  (exists e dz, parseTokens docRedeclared = (Some e, ctxDeclared, dz)).
Proof.
  unfold parseTokens. split.
  - refine (proj1 (undeclared_or_redeclared_attribute_is_error lower designatorEntity
                     _ _ [] "policies" newContext (mkDecoder (drop 2 docUsedThenDeclared) None) _)
              "x" ["x"] 4 "x" _ _ _ _).
    + root_position.
    + reflexivity.
    + reflexivity.
    + apply list_elem_of_In. left. reflexivity.
    + reflexivity.
  - refine (proj2 (undeclared_or_redeclared_attribute_is_error lower designatorEntity
                     _ _ [] "attributes" newContext (mkDecoder (drop 2 docRedeclared) None) _)
              (mkDecoder (drop 3 docRedeclared) None) ["x"] ctxDeclared
              (mkDecoder (drop 5 docRedeclared) None) "x"
              (mkDecoder (drop 6 docRedeclared) None) _ _ _ _ _).
    + root_position.
    + reflexivity.
    + reflexivity.
    + dispatch.
    + reflexivity.
    + left. apply list_elem_of_In. left. reflexivity.
Defined.

Lemma empty_document_parses_witness :
  (forall ctx : context string,
     unmarshal lower hA hP (mkDecoder [] None) ctx = (None, ctx, mkDecoder [] None)) /\
  exists ctx' : context string,
    unmarshal lower hA hP (mkDecoder [] None) newContext = (None, ctx', mkDecoder [] None) /\
    rootPolicy ctx' = None /\ attrs ctx' = ∅.
Proof.
  apply (empty_document_parses lower hA hP (mkDecoder [] None) (mkDecoder [] None)).
  reflexivity.
Defined.

Lemma trailing_content_is_error_witness :
  parseTokens docTrailing = (Some (newMissingEOFError TNull), newContext, mkDecoder [] None).
Proof.
  unfold parseTokens.
  refine (proj1 (proj2 (trailing_content_is_error lower hA hP _ _ [] newContext
                          (mkDecoder [TNull] None) _)) TNull [] eq_refl).
  root_position.
Defined.

Lemma denyOverrides_table_witness :
  pdp.effect (pdp.denyOverrides
    [pdp.mkResponse pdp.Permit []; pdp.mkResponse pdp.Deny [("log", "on")];
     pdp.mkResponse pdp.Indeterminate []]) = pdp.Deny /\
  exists r,
    r ∈ [pdp.mkResponse pdp.Permit []; pdp.mkResponse pdp.Deny [("log", "on")];
         pdp.mkResponse pdp.Indeterminate []] /\
    pdp.effect r = pdp.Deny /\
    pdp.obligations (pdp.denyOverrides
      [pdp.mkResponse pdp.Permit []; pdp.mkResponse pdp.Deny [("log", "on")];
       pdp.mkResponse pdp.Indeterminate []]) = pdp.obligations r.
Proof.
  apply (proj1 (denyOverrides_table _)).
  right. left. reflexivity.
Defined.

Lemma InitTracing_endpoint_and_type_witness :
  pdpserver.InitTracing (Tracer := unit)
    (fun _ => (Some tt, None)) (fun _ _ _ _ => tt) (fun _ => (Some tt, None))
    "jaeger" "localhost:9411"
  = (None, Some (fmt_Errorf "Invalid tracing type: jaeger")).
Proof.
  apply (proj2 (InitTracing_endpoint_and_type
                  (fun _ => (Some tt, None)) (fun _ _ _ _ => tt) (fun _ => (Some tt, None))));
    discriminate.
Defined.

End Documents.

(** * Further properties of the code *)

(** ** What the member loop does to the state of its callback *)

Section UnmarshalObjectInvariant.

Context {St : Type}.
Variable f : string -> Decoder -> St -> option error * St * nat.
Variable desc : string.
Variable P : St -> Prop.

(** The loop changes the state only through the callback. *)
Lemma UnmarshalObject_invariant d s :
  (forall k d s e s' n, f k d s = (e, s', n) -> P s -> P s') ->
  P s -> P (snd (fst (jparser.UnmarshalObject d f desc s))).
Proof.
  intros Hf. remember (length (pending d)) as m eqn:Hm.
  revert d s Hm. induction m as [m IH] using lt_wf_ind. intros d s Hm HP.
  rewrite UnmarshalObject_unfold.
  destruct (Decoder_Token d) as [[t|err] d1] eqn:Ht; [|done].
  destruct t as [delim|b|lit|k|]; try done.
  - by case_decide.
  - destruct (f k d1 s) as [[e s1] n] eqn:Hk.
    pose proof (Hf _ _ _ _ _ _ Hk HP) as HP1.
    destruct e as [err|]; [done|].
    apply Decoder_Token_length in Ht.
    apply (IH (length (pending (advance n d1)))); [|done|done].
    simpl. rewrite length_drop. lia.
Qed.

(** The input ends the same way wherever the loop has got to. *)
Lemma Dispatched_ending s d ks s' d' :
  jparser.Dispatched f s d ks s' d' -> ending d' = ending d.
Proof.
  induction 1 as [|s d k d1 s1 n ks s' d' Ht Hf _ IH]; [done|].
  rewrite IH. simpl. unfold Decoder_Token in Ht.
  destruct (pending d); [done|]. by injection Ht as _ <-.
Qed.

End UnmarshalObjectInvariant.

(** ** [context.unmarshal]: invariants, success and malformed members *)

Section RootParserMore.

Import jast.

Context {Evaluable : Type}.
Variable ToLower : string -> string.
Variables hAttributes hPolicies : Handler Evaluable.

Local Abbreviation rootMember := (rootMember ToLower hAttributes hPolicies).
Local Abbreviation unmarshal := (unmarshal ToLower hAttributes hPolicies).
Local Abbreviation RootClosed := (RootClosed ToLower hAttributes hPolicies).
Local Abbreviation RootAt := (RootAt ToLower hAttributes hPolicies).

(** From a position of the member loop on, [unmarshal] returns what the
    loop and the end-of-input check return there. *)
Lemma unmarshal_at d (ctx : context Evaluable) ks ctx' dk :
  RootAt d ctx ks ctx' dk ->
  unmarshal d ctx =
  match jparser.UnmarshalObject dk rootMember "root" ctx' with
  | (Some err, c, d2) => (Some err, c, d2)
  | (None, c, d2) => let '(err, d3) := jparser.CheckEOF d2 in (err, c, d3)
  end.
Proof.
  intros (d1 & Hstart & Hdisp).
  rewrite (unmarshal_open _ _ _ _ _ _ Hstart).
  by rewrite (UnmarshalObject_dispatched _ _ _ _ _ _ _ Hdisp).
Qed.

(** [unmarshal] itself never writes to the context: a property of contexts
    that both section handlers keep, whatever they return, holds of the
    context after [unmarshal] whenever it held before, on success and on
    failure alike. *)
Theorem unmarshal_keeps_handler_invariant (P : context Evaluable -> Prop) d ctx :
  (forall d ctx e ctx' n, hAttributes d ctx = (e, ctx', n) -> P ctx -> P ctx') ->
  (forall d ctx e ctx' n, hPolicies d ctx = (e, ctx', n) -> P ctx -> P ctx') ->
  P ctx -> P (snd (fst (unmarshal d ctx))).
Proof.
  intros HA HP Hctx. unfold jast.unmarshal.
  destruct (jparser.CheckRootObjectStart d) as [[[] [err|]] d1]; try done.
  pose proof (UnmarshalObject_invariant rootMember "root" P d1 ctx) as Hloop.
  destruct (jparser.UnmarshalObject d1 _ _ ctx) as [[[err|] c] d2]; simpl in *.
  - apply Hloop; [|done]. clear -HA HP.
    intros k d s e s' n. unfold jast.rootMember.
    repeat case_decide; [apply HA|apply HP|by intros [= _ <- _]].
  - destruct (jparser.CheckEOF d2) as [err d3]. simpl.
    apply Hloop; [|done]. clear -HA HP.
    intros k d s e s' n. unfold jast.rootMember.
    repeat case_decide; [apply HA|apply HP|by intros [= _ <- _]].
Qed.

(** [unmarshal] returns [nil] exactly in two cases: the input ends before
    its first token, and then context and decoder are untouched; or the
    root object is closed after members that were all accepted and the
    input ends cleanly right after the closing brace.  In both cases no
    token is left. *)
Theorem unmarshal_success_iff d (ctx : context Evaluable) ctx' d' :
  unmarshal d ctx = (None, ctx', d') <->
  (pending d = [] /\ ending d = None /\ ctx' = ctx /\ d' = d) \/
  (exists ks, RootClosed d ctx ks ctx' d' /\ pending d' = [] /\ ending d' = None).
Proof.
  split.
  - unfold jast.unmarshal.
    destruct (jparser.CheckRootObjectStart d) as [[[] [err|]] d1] eqn:Hs; try done.
    + destruct (jparser.UnmarshalObject d1 _ _ ctx) as [[[err|] c] d2] eqn:Hrun; [done|].
      apply UnmarshalObject_success_inv in Hrun as (ks & dk & Hdisp & Hend).
      unfold jparser.CheckEOF, Decoder_Token.
      destruct d2 as [[|t rest] [msg|]]; simpl; try done.
      intros [= -> <-]. right. exists ks. split; [by exists d1, dk|done].
    + intros [= <- <-]. left.
      apply CheckRootObjectStart_absent in Hs as (? & ? & ->). done.
  - intros [(Hp & He & -> & ->)|(ks & Hclosed & Hp & He)].
    + unfold jast.unmarshal.
      by rewrite (proj2 (CheckRootObjectStart_absent d d)).
    + destruct Hclosed as (d1 & dk & Hstart & Hdisp & Hend).
      rewrite (unmarshal_at d ctx ks ctx' dk) by (by exists d1).
      rewrite (UnmarshalObject_end _ _ _ _ _ Hend).
      unfold jparser.CheckEOF, Decoder_Token. rewrite Hp, He.
      by destruct d' as [toks e]; simpl in *; subst.
Qed.


End RootParserMore.

(** ** [setupZipkin] and [InitTracing]: the collector's URL *)

Section TracingMore.

Import pdpserver.

Lemma substring_prefix s post :
  String.substring 0 (String.length s) (s +:+ post) = s.
Proof.
  induction s as [|c s IH]; simpl.
  - by destruct post.
  - by rewrite IH.
Qed.

Lemma substring_middle pre s post :
  String.substring (String.length pre) (String.length s) (pre +:+ s +:+ post) = s.
Proof.
  induction pre as [|c pre IH]; [exact (substring_prefix s post)|done].
Qed.

(** [strings.Index] finds a word that occurs in the text. *)
Lemma strings_Index_occurs pre w post :
  w <> EmptyString -> strings_Index (pre +:+ w +:+ post) w <> (-1)%Z.
Proof.
  intros Hw. unfold strings_Index.
  destruct (String.index 0 w (pre +:+ w +:+ post)) as [n|] eqn:Hi; [lia|].
  destruct (String.index_correct3 0 (String.length pre) _ _ Hi Hw); [lia|].
  apply substring_middle.
Qed.

Context {Tracer Collector Recorder : Type}.
Variable zipkin_NewRecorder : option Collector -> bool -> string -> string -> Recorder.
Variable zipkin_NewTracer : Recorder -> option Tracer * option error.

Local Abbreviation setupZipkin C := (setupZipkin C zipkin_NewRecorder zipkin_NewTracer).
Local Abbreviation InitTracing C := (InitTracing C zipkin_NewRecorder zipkin_NewTracer).

(** The completed endpoint contains [http]. *)
Lemma span_url_has_http ep :
  strings_Index ("http://" +:+ ep +:+ "/api/v1/spans") "http" <> (-1)%Z.
Proof.
  apply (strings_Index_occurs EmptyString "http" ("://" +:+ ep +:+ "/api/v1/spans")).
  done.
Qed.

(** The URL the collector is created with always contains [http]: the
    result of [setupZipkin] depends on the collector constructor only
    through its values on such URLs. *)
Theorem setupZipkin_collector_url_has_scheme
    (C C' : string -> option Collector * option error) tracingEP :
  (forall url, strings_Index url "http" <> (-1)%Z -> C url = C' url) ->
  setupZipkin C tracingEP = setupZipkin C' tracingEP.
Proof.
  intros HC. unfold pdpserver.setupZipkin.
  case_decide as Hi.
  - by rewrite (HC _ (span_url_has_http tracingEP)).
  - by rewrite (HC _ Hi).
Qed.

(** An endpoint in which [http] occurs anywhere, not only in front, is
    handed to the collector as it is; the recorder is created with
    [false], the empty string and [PDP]. *)
Theorem setupZipkin_keeps_endpoint_with_http
    (C : string -> option Collector * option error) pre post :
  setupZipkin C (pre +:+ "http" +:+ post) =
  match C (pre +:+ "http" +:+ post) with
  | (_, Some err) => (None, Some err)
  | (collector, None) =>
      zipkin_NewTracer (zipkin_NewRecorder collector false EmptyString "PDP")
  end.
Proof.
  unfold pdpserver.setupZipkin.
  rewrite decide_False; [done|]. by apply strings_Index_occurs.
Qed.

(** For the zipkin type, a bare endpoint (non-empty, without [http]) and
    the span URL built from it give the same result: the completion of the
    endpoint is not applied twice. *)
Theorem InitTracing_zipkin_bare_endpoint
    (C : string -> option Collector * option error) tracingEP :
  tracingEP <> EmptyString ->
  strings_Index tracingEP "http" = (-1)%Z ->
  InitTracing C "zipkin" tracingEP
  = InitTracing C "zipkin" ("http://" +:+ tracingEP +:+ "/api/v1/spans").
Proof.
  intros Hne Hi. unfold pdpserver.InitTracing.
  destruct (decide (tracingEP = EmptyString)) as [|_]; [done|].
  destruct (decide ("http://" +:+ tracingEP +:+ "/api/v1/spans" = EmptyString))
    as [|_]; [done|].
  destruct (decide ("zipkin" = "zipkin")) as [_|]; [|done].
  unfold pdpserver.setupZipkin.
  destruct (decide (strings_Index tracingEP "http" = (-1)%Z)) as [_|]; [|done].
  destruct (decide (strings_Index ("http://" +:+ tracingEP +:+ "/api/v1/spans") "http"
                    = (-1)%Z)) as [Hbad|_]; [|done].
  by destruct (span_url_has_http tracingEP).
Qed.

(** A tracer is returned only for the type [zipkin] with a non-empty
    endpoint, and it is the one [zipkin.NewTracer] made from a collector
    that was created without error on a URL containing [http]. *)
Theorem InitTracing_tracer_only_for_zipkin
    (C : string -> option Collector * option error) tracingType tracingEP tracer err :
  InitTracing C tracingType tracingEP = (Some tracer, err) ->
  tracingType = "zipkin" /\ tracingEP <> EmptyString /\
  exists url collector,
    strings_Index url "http" <> (-1)%Z /\
    C url = (collector, None) /\
    zipkin_NewTracer (zipkin_NewRecorder collector false EmptyString "PDP")
    = (Some tracer, err).
Proof.
  unfold pdpserver.InitTracing.
  case_decide as Hep; [done|]. case_decide as Hty; [|done].
  unfold pdpserver.setupZipkin. intros Hrun.
  split; [done|]. split; [done|].
  case_decide as Hi.
  - destruct (C _) as [collector [e|]] eqn:HC; [done|].
    eexists _, collector. split; [apply (span_url_has_http tracingEP)|]. done.
  - destruct (C _) as [collector [e|]] eqn:HC; [done|].
    by exists tracingEP, collector.
Qed.

End TracingMore.

(** ** The further properties on concrete inputs *)

Section DeclaredStays.

Import jast.

Context {Evaluable : Type}.
Variable unmarshalEntity : Decoder -> (error + Evaluable * list string) * nat.
Variable id : string.
Variable a : Attribute.

(** The section parsers never overwrite or remove a declared attribute,
    whatever they return. *)
Lemma declaration_keeps_attribute k d (ctx : context Evaluable) e ctx' n :
  unmarshalAttributeDeclaration k d ctx = (e, ctx', n) ->
  attrs ctx !! id = Some a -> attrs ctx' !! id = Some a.
Proof.
  unfold unmarshalAttributeDeclaration.
  destruct (jparser.GetString d _) as [[t|err] d2]; [|by intros [= _ <- _]].
  destruct (attrs ctx !! k) eqn:Hk; [by intros [= _ <- _]|].
  intros [= _ <- _] Hid. simpl.
  rewrite lookup_insert_ne; [done|]. intros ->. congruence.
Qed.

Lemma declarations_keep_attribute d (ctx : context Evaluable) e ctx' n :
  unmarshalAttributeDeclarations d ctx = (e, ctx', n) ->
  attrs ctx !! id = Some a -> attrs ctx' !! id = Some a.
Proof.
  unfold unmarshalAttributeDeclarations.
  destruct (jparser.CheckObjectStart d _) as [[err|] d1]; [by intros [= _ <- _]|].
  pose proof (UnmarshalObject_invariant unmarshalAttributeDeclaration
                "attribute declarations"
                (fun c => attrs c !! id = Some a) d1 ctx) as Hloop.
  destruct (jparser.UnmarshalObject d1 _ _ ctx) as [[err c] d2].
  intros [= _ <- _] Hid. apply Hloop; [|done].
  intros k d0 s e0 s' n0. apply declaration_keeps_attribute.
Qed.

Lemma root_policy_keeps_attribute d (ctx : context Evaluable) e ctx' n :
  unmarshalRootPolicy unmarshalEntity d ctx = (e, ctx', n) ->
  attrs ctx !! id = Some a -> attrs ctx' !! id = Some a.
Proof.
  unfold unmarshalRootPolicy.
  destruct (unmarshalEntity d) as [[err|[t refs]] m]; [by intros [= _ <- _]|].
  destruct (find _ refs); by intros [= _ <- _].
Qed.

End DeclaredStays.

Section MoreDocuments.

Import jast.

Local Abbreviation hA := (unmarshalAttributeDeclarations (Evaluable := string)).
Local Abbreviation hP := (unmarshalRootPolicy designatorEntity).
Local Abbreviation lower := strings.ToLowerASCII.

Ltac dispatch :=
  repeat (eapply jparser.dispatched_member;
          [reflexivity | vm_compute; reflexivity | ]);
  vm_compute; apply jparser.dispatched_none.

Lemma unmarshal_keeps_handler_invariant_witness :
  attrs (snd (fst (unmarshal lower hA hP (mkDecoder docRedeclared None) ctxDeclared)))
    !! "x" = Some (MakeAttribute "x" "string").
Proof.
  apply (unmarshal_keeps_handler_invariant lower hA hP
           (fun c => attrs c !! "x" = Some (MakeAttribute "x" "string"))).
  - intros d ctx e ctx' n. apply declarations_keep_attribute.
  - intros d ctx e ctx' n. apply root_policy_keeps_attribute.
  - vm_compute. reflexivity.
Defined.


Lemma setupZipkin_collector_url_has_scheme_witness :
  pdpserver.setupZipkin (Tracer := string)
    (fun url => (Some url, None)) (fun c _ _ _ => c) (fun r => (r, None))
    "localhost:9411"
  = pdpserver.setupZipkin
      (fun url =>
         if decide (pdpserver.strings_Index url "http" = (-1)%Z)
         then (None, Some (fmt_Errorf "no scheme"))
         else (Some url, None))
      (fun c _ _ _ => c) (fun r => (r, None))
      "localhost:9411".
Proof.
  apply (setupZipkin_collector_url_has_scheme (Tracer := string)
           (fun c _ _ _ => c) (fun r => (r, None))).
  intros url Hurl. by rewrite decide_False.
Defined.

Lemma InitTracing_zipkin_bare_endpoint_witness :
  pdpserver.InitTracing (Tracer := string)
    (fun url => (Some url, None)) (fun c _ _ _ => c) (fun r => (r, None))
    "zipkin" "localhost:9411"
  = pdpserver.InitTracing
      (fun url => (Some url, None)) (fun c _ _ _ => c) (fun r => (r, None))
      "zipkin" "http://localhost:9411/api/v1/spans".
Proof.
  apply (InitTracing_zipkin_bare_endpoint (Tracer := string)
           (fun c _ _ _ => c) (fun r => (r, None))
           (fun url => (Some url, None)) "localhost:9411").
  - discriminate.
  - vm_compute. reflexivity.
Defined.

Lemma InitTracing_tracer_only_for_zipkin_witness :
  "zipkin" = "zipkin" /\ "localhost:9411" <> EmptyString /\
  exists url collector,
    pdpserver.strings_Index url "http" <> (-1)%Z /\
    (Some url, @None error) = (collector, None) /\
    (collector, @None error) = (Some "http://localhost:9411/api/v1/spans", None).
Proof.
  apply (InitTracing_tracer_only_for_zipkin (Tracer := string)
           (fun c _ _ _ => c) (fun r => (r, None))
           (fun url => (Some url, None)) "zipkin" "localhost:9411").
  vm_compute. reflexivity.
Defined.

End MoreDocuments.
